(** * The dog-picture pipeline of [index.js] and its callback variant

    A shallow embedding of the asynchronous JavaScript of this repository:
    the promisified file helpers [readFilePro] and [writeFilePro], the
    [async] function [getDogPic], the top-level [async] block, and the
    callback script kept in a second file.  The file system, the network
    and the console are the program's environment; they are modelled by a
    store of files, an oracle for the network, and a log of the events the
    program causes. *)

From Stdlib Require Import ZArith.
From stdpp Require Import gmap strings list fin_maps.

Open Scope Z_scope.
Open Scope string_scope.

(** ** JavaScript values the program handles *)

(** The JSON bodies, the console arguments and the data handed to
    [fs.writeFile].  Objects keep their own properties in order; the
    numbers the program meets (status codes, [errno]) are integers. *)
#[warnings="-register-all"] Inductive value :=
  | VUndefined
  | VNull
  | VString (s : string)
  | VNumber (n : Z)
  | VBool (b : bool)
  | VArray (items : list value)
  | VObject (props : list (string * value)).

(** Every value thrown in this program is an [Error] instance built by
    [fs], by [superagent], by the runtime ([TypeError]) or by
    [new Error(..)]: a name (its kind), a message, and further fields
    such as [code], [errno], [status] or [response]. *)
Record js_error := JsError {
  err_name : string;
  err_message : string;
  err_props : list (string * value)
}.

(** [new Error(message)] with a string argument. *)
Definition new_Error (message : string) : js_error :=
  {| err_name := "Error"; err_message := message; err_props := [] |}.

(** An error object as the console receives it. *)
Definition error_value (e : js_error) : value :=
  VObject (("name", VString (err_name e))
           :: ("message", VString (err_message e)) :: err_props e).

(** The part of a [superagent] response the program can see. *)
Record response := Response { status : Z; body : value }.

(** A request built by [superagent.get(url)]; nothing is sent yet. *)
Record request := Request { req_method : string; req_url : string }.

(** ** Events *)

(** The three kinds of operation the stages perform. *)
Inductive op :=
  | ReadFile (file : string)
  | Http (method url : string)
  | WriteFile (file : string) (data : value).

(** What a run causes, in order: an operation is invoked, an operation
    is done (with the error it failed with, if any), a line goes to
    [console.log] or to [console.error]. *)
Inductive event :=
  | Invoke (o : op)
  | Done (o : op) (failure : option js_error)
  | ConsoleLog (args : list value)
  | ConsoleError (args : list value).

(** ** The environment *)

Inductive net_answer :=
  | NetFail (e : js_error)
  | NetResponse (r : response).

Record env := Env {
  (** [__dirname] *)
  dirname : string;
  (** an I/O error other than absence that reading a path meets *)
  read_fault : string -> option js_error;
  (** an I/O error that writing a path meets *)
  write_fault : string -> option js_error;
  (** where that error comes: [None] when the path cannot even be
      opened, [Some n] when the path was opened, which empties it, and
      [n] characters of the data had been written *)
  write_fault_after : string -> option nat;
  (** what the network answers to a GET of a URL *)
  net : string -> net_answer;
  (** the error [superagent] builds for an unsuccessful response *)
  http_error : response -> js_error;
  (** the runtime's [ERR_INVALID_ARG_TYPE] error for an argument *)
  arg_type_error : string -> value -> js_error
}.

(** ** The monad of effects *)

Inductive outcome (A : Type) :=
  | Ok (a : A)
  | Throw (e : js_error).
Arguments Ok {A} a.
Arguments Throw {A} e.

(** One run from a store of files: how it ended, the files it leaves,
    the events it caused. *)
Record run (A : Type) := Run {
  result : outcome A;
  store : gmap string string;
  events : list event
}.
Arguments Run {A} _ _ _.
Arguments result {A} _.
Arguments store {A} _.
Arguments events {A} _.

Definition M (A : Type) : Type := gmap string string -> run A.

Definition ret {A} (a : A) : M A := fun fs => Run (Ok a) fs [].

Definition throw {A} (e : js_error) : M A := fun fs => Run (Throw e) fs [].

(** The events [tr] happened before the run [r]. *)
Definition after {A} (tr : list event) (r : run A) : run A :=
  match r with
  | Run res fs tr' => Run res fs (tr ++ tr')
  end.

Definition bind {A B} (m : M A) (k : A -> M B) : M B := fun fs =>
  match m fs with
  | Run (Ok a) fs' tr => after tr (k a fs')
  | Run (Throw e) fs' tr => Run (Throw e) fs' tr
  end.

(** [try { m } catch (err) { h err }] *)
Definition try_catch {A} (m : M A) (h : js_error -> M A) : M A := fun fs =>
  match m fs with
  | Run (Ok a) fs' tr => Run (Ok a) fs' tr
  | Run (Throw e) fs' tr => after tr (h e fs')
  end.

Definition emit (e : event) : M unit := fun fs => Run (Ok tt) fs [e].

#[global] Instance M_ret : MRet M := @ret.
#[global] Instance M_bind : MBind M := fun A B k m => bind m k.

Definition console_log (args : list value) : M unit := emit (ConsoleLog args).
Definition console_error (args : list value) : M unit :=
  emit (ConsoleError args).

(** ** Promises *)

(** A promise, or the pending continuation of a callback, is the
    computation that the event loop runs when the operation behind it
    completes: it performs the completion and then what was registered
    on it.  Resolving is returning, rejecting is throwing. *)
Definition promise (A : Type) : Type := M A.

(** [new Promise((resolve, reject) => ...)]: the executor runs at once;
    an exception it throws rejects the promise. *)
Definition new_Promise {A}
    (executor : (A -> M A) -> (js_error -> M A) -> M (promise A))
    : M (promise A) :=
  try_catch (executor ret throw) (fun e => ret (throw e)).

(** [await e]: evaluate [e] to a promise, then suspend until it is
    settled; a rejection is thrown at the [await]. *)
Definition await {A} (e : M (promise A)) : M A := p ← e; p.

(** A call in callback style that is the last thing its caller does:
    the caller returns, and the event loop later runs what is pending,
    the completion followed by the callback. *)
Definition event_loop {A} (e : M (promise A)) : M A := p ← e; p.

(** ** The platform: [fs], [superagent], property access *)

Section Platform.
Variable E : env.

(** The error of [fs.readFile] on an absent path. *)
Definition enoent (file : string) : js_error :=
  {| err_name := "Error";
     err_message :=
       "ENOENT: no such file or directory, open '" +:+ file +:+ "'";
     err_props := [("errno", VNumber (-2)); ("code", VString "ENOENT");
                   ("syscall", VString "open"); ("path", VString file)] |}.

Definition failure_of {A} (r : js_error + A) : option js_error :=
  match r with inl e => Some e | inr _ => None end.

(** What reading a path with encoding ["utf8"] gives: the decoded
    content, or an error. *)
Definition read_result (file : string) (fs : gmap string string)
    : js_error + string :=
  match read_fault E file with
  | Some e => inl e
  | None => match fs !! file with
            | Some s => inr s
            | None => inl (enoent file)
            end
  end.

Definition complete_read (file : string) : M (js_error + string) :=
  fun fs =>
    let r := read_result file fs in
    Run (Ok r) fs [Done (ReadFile file) (failure_of r)].

(** [fs.readFile(file, "utf8", cb)]: starts the read and returns; [cb]
    runs with [(err, data)] when the read completes. *)
Definition fs_readFile {B} (file : string) (cb : js_error + string -> M B)
    : M (promise B) :=
  emit (Invoke (ReadFile file));;
  mret (r ← complete_read file; cb r).

(** What a write that meets a fault leaves.  With the flag ['w'] the
    file is emptied when it is opened: a fault at the opening (no
    permission, a directory) leaves the files as they were, a fault
    after it (disk full, I/O error) leaves the file holding what had
    been written of the data by then. *)
Definition after_write_fault (file data : string) (fs : gmap string string)
    : gmap string string :=
  match write_fault_after E file with
  | None => fs
  | Some n => <[file := String.substring 0 n data]> fs
  end.

(** Completion of a write: the file is replaced by the data, or the
    write meets a fault. *)
Definition complete_write (file data : string) : M (option js_error) :=
  fun fs =>
    match write_fault E file with
    | Some e =>
        Run (Ok (Some e)) (after_write_fault file data fs)
            [Done (WriteFile file (VString data)) (Some e)]
    | None =>
        Run (Ok None) (<[file := data]> fs)
            [Done (WriteFile file (VString data)) None]
    end.

(** [fs.writeFile(file, data, cb)] with the default flag ['w'].  Since
    Node 14 data that is neither a string nor a buffer is refused by an
    exception thrown in the call itself; otherwise the write starts and
    [cb] runs with [err] when it completes. *)
Definition fs_writeFile {B} (file : string) (data : value)
    (cb : option js_error -> M B) : M (promise B) :=
  emit (Invoke (WriteFile file data));;
  match data with
  | VString s => mret (err ← complete_write file s; cb err)
  | _ =>
      let e := arg_type_error E "data" data in
      emit (Done (WriteFile file data) (Some e));;
      throw e
  end.

(** Modelled from the spec: [superagent] is a dependency whose code is
    not in this repository; a response is successful when its status is
    2xx, any other response and any transport failure is an error. *)
Definition is_2xx (st : Z) : bool := ((200 <=? st) && (st <? 300))%Z.

(** What a sent request gives. *)
Definition http_result (req : request) : js_error + response :=
  match net E (req_url req) with
  | NetFail e => inl e
  | NetResponse res =>
      if is_2xx (status res) then inr res else inl (http_error E res)
  end.

Definition complete_http (req : request) : M (js_error + response) :=
  fun fs =>
    let r := http_result req in
    Run (Ok r) fs [Done (Http (req_method req) (req_url req)) (failure_of r)].

(** [superagent.get(url)] *)
Definition superagent_get (url : string) : request :=
  {| req_method := "GET"; req_url := url |}.

(** [req.end(cb)]: sends the request; [cb] runs with [(err, res)]. *)
Definition request_end {B} (req : request)
    (cb : js_error + response -> M B) : M (promise B) :=
  emit (Invoke (Http (req_method req) (req_url req)));;
  mret (r ← complete_http req; cb r).

(** [req.then(..)], which [await req] calls: the request is sent and a
    promise for its response is returned. *)
Definition request_then (req : request) : M (promise response) :=
  new_Promise (fun resolve reject =>
    request_end req (fun r =>
      match r with
      | inl err => reject err
      | inr res => resolve res
      end)).

Fixpoint own_prop (k : string) (props : list (string * value)) : value :=
  match props with
  | [] => VUndefined
  | (k', v) :: rest => if String.eqb k k' then v else own_prop k rest
  end.

(** [v.k] for a property [k] that no prototype defines (such as
    [message] on a plain object, an array, a string, a number or a
    boolean): reading a property of [undefined] or [null] throws. *)
Definition prop (v : value) (k : string) : outcome value :=
  match v with
  | VUndefined =>
      Throw {| err_name := "TypeError";
               err_message :=
                 "Cannot read properties of undefined (reading '" +:+ k +:+ "')";
               err_props := [] |}
  | VNull =>
      Throw {| err_name := "TypeError";
               err_message :=
                 "Cannot read properties of null (reading '" +:+ k +:+ "')";
               err_props := [] |}
  | VObject props => Ok (own_prop k props)
  | VString _ | VNumber _ | VBool _ | VArray _ => Ok VUndefined
  end.

Definition get_prop (v : value) (k : string) : M value :=
  fun fs => Run (prop v k) fs [].

(** ** [index.js] *)

Definition readFilePro (file : string) : M (promise string) :=
  new_Promise (fun resolve reject =>
    fs_readFile file (fun r =>
      match r with
      | inl err => reject err
      | inr data => resolve data
      end)).

Definition writeFilePro (file : string) (data : value) : M (promise value) :=
  new_Promise (fun resolve reject =>
    fs_writeFile file data (fun err =>
      match err with
      | Some err => reject err
      | None => resolve (VString "success")
      end)).

(** The body of the [try] block of [getDogPic]. *)
Definition getDogPic_try : M value :=
  breed ← await (readFilePro (dirname E +:+ "/dog.txt"));
  console_log [VString "Dog breed:"; VString breed];;
  response ← await (request_then (superagent_get
    ("https://dog.ceo/api/breed/" +:+ breed +:+ "/images/random")));
  message ← get_prop (body response) "message";
  console_log [VString "Dog image URL:"; message];;
  message ← get_prop (body response) "message";
  await (writeFilePro (dirname E +:+ "/dog-image.txt") message);;
  console_log [VString "Dog image URL saved to dog-image.txt"];;
  mret (VString "Step: 2: ready!").

(** [getDogPic], called and awaited: the caller does nothing between
    the call and the [await], so the body runs in place and a rejected
    promise is a thrown error. *)
Definition getDogPic : M value :=
  try_catch getDogPic_try (fun err => throw (new_Error (err_message err))).

(** The top-level [async] block. *)
Definition main : M unit :=
  try_catch
    (console_log [VString "Step 1: will get dog pics!"];;
     msg ← getDogPic;
     console_log [msg];;
     console_log [VString "Step 3: done getting dog pics!"])
    (fun err =>
       console_error [VObject [("asyncError", VString (err_message err))]]).

(** ** The callback script *)

Definition callback_main : M unit :=
  event_loop (fs_readFile (dirname E +:+ "/dog.txt") (fun r =>
    match r with
    | inl err => console_error [VString "Error reading file:"; error_value err]
    | inr data =>
        console_log [VString "Dog breed:"; VString data];;
        event_loop (request_end (superagent_get
          ("https://dog.ceo/api/breed/" +:+ data +:+ "/images/random"))
          (fun r =>
             match r with
             | inl err =>
                 console_error [VString "Error fetching dog image:";
                                VString (err_message err)]
             | inr res =>
                 message ← get_prop (body res) "message";
                 console_log [VString "Dog image URL:"; message];;
                 message ← get_prop (body res) "message";
                 event_loop (fs_writeFile (dirname E +:+ "/dog-image.txt") message
                   (fun err =>
                      match err with
                      | Some err =>
                          console_error [VString "Error writing file:";
                                         error_value err]
                      | None =>
                          console_log
                            [VString "Dog image URL saved to dog-image.txt"]
                      end))
             end))
    end)).

End Platform.

(** ** The variant kept in a comment of [getDogPic] *)

Fixpoint start_all {A} (es : list (M (promise A))) : M (list (promise A)) :=
  match es with
  | [] => mret []
  | e :: es' => p ← e; ps ← start_all es'; mret (p :: ps)
  end.

Fixpoint settle_all {A} (ps : list (promise A)) : M (list A) :=
  match ps with
  | [] => mret []
  | p :: ps' => a ← p; rest ← settle_all ps'; mret (a :: rest)
  end.

(** [Promise.all([e1, e2, ...])]: every promise is obtained first, which
    sends every request; the result resolves when all have resolved and
    rejects with the first rejection. *)
Definition Promise_all {A} (es : list (M (promise A))) : M (promise (list A)) :=
  ps ← start_all es; mret (settle_all ps).

(** The three requests of the commented-out block, joined. *)
Definition three_requests (E : env) (breed : string) : M (list response) :=
  await (Promise_all
    [request_then E (superagent_get
       ("https://dog.ceo/api/breed/" +:+ breed +:+ "/images/random"));
     request_then E (superagent_get
       ("https://dog.ceo/api/breed/" +:+ breed +:+ "/images/random"));
     request_then E (superagent_get
       ("https://dog.ceo/api/breed/" +:+ breed +:+ "/images/random"))]).

(** ** Names for the paths and the URL of the program *)

(** [`${__dirname}/dog.txt`] *)
Definition dog_txt (E : env) : string := dirname E +:+ "/dog.txt".

(** [`${__dirname}/dog-image.txt`] *)
Definition dog_image_txt (E : env) : string := dirname E +:+ "/dog-image.txt".

(** [`https://dog.ceo/api/breed/${breed}/images/random`] *)
Definition dog_url (breed : string) : string :=
  "https://dog.ceo/api/breed/" +:+ breed +:+ "/images/random".

(** ** Reading a log of events *)

Inductive stage := Reader | Fetcher | Writer.

Definition stage_of (o : op) : stage :=
  match o with
  | ReadFile _ => Reader
  | Http _ _ => Fetcher
  | WriteFile _ _ => Writer
  end.

(** The operations invoked, in order. *)
Definition invoked (tr : list event) : list op :=
  omap (fun e => match e with Invoke o => Some o | _ => None end) tr.

(** The calls of the Reader: the paths read. *)
Definition reader_calls (tr : list event) : list string :=
  omap (fun o => match o with ReadFile f => Some f | _ => None end)
       (invoked tr).

(** The requests of the Fetcher: method and URL. *)
Definition http_requests (tr : list event) : list (string * string) :=
  omap (fun o => match o with Http m u => Some (m, u) | _ => None end)
       (invoked tr).

(** The calls of the Writer: path and data. *)
Definition writer_calls (tr : list event) : list (string * value) :=
  omap (fun o => match o with WriteFile f d => Some (f, d) | _ => None end)
       (invoked tr).

(** The operations that failed, with their errors. *)
Definition failed (tr : list event) : list (op * js_error) :=
  omap (fun e => match e with Done o (Some err) => Some (o, err) | _ => None end)
       tr.

(** What went to [console.error]. *)
Definition console_errors (tr : list event) : list (list value) :=
  omap (fun e => match e with ConsoleError args => Some args | _ => None end)
       tr.

(** What went to [console.log]. *)
Definition console_logs (tr : list event) : list (list value) :=
  omap (fun e => match e with ConsoleLog args => Some args | _ => None end)
       tr.

(** A log in which no operation is invoked while another is in flight:
    each invocation is followed at once by the completion of that same
    operation. *)
Inductive one_at_a_time : list event -> Prop :=
  | oat_nil : one_at_a_time []
  | oat_log args tr :
      one_at_a_time tr -> one_at_a_time (ConsoleLog args :: tr)
  | oat_error args tr :
      one_at_a_time tr -> one_at_a_time (ConsoleError args :: tr)
  | oat_op o failure tr :
      one_at_a_time tr -> one_at_a_time (Invoke o :: Done o failure :: tr).

(** The largest number of operations in flight at once, from [n] in
    flight at the start of the log. *)
Fixpoint max_in_flight (n : nat) (tr : list event) : nat :=
  match tr with
  | [] => n
  | Invoke _ :: tr' => Nat.max n (max_in_flight (S n) tr')
  | Done _ _ :: tr' => Nat.max n (max_in_flight (Nat.pred n) tr')
  | _ :: tr' => max_in_flight n tr'
  end.

(** No operation is invoked after one has failed. *)
Fixpoint stops_at_failure (tr : list event) : bool :=
  match tr with
  | [] => true
  | Done _ (Some _) :: tr' =>
      match invoked tr' with [] => true | _ => false end
  | _ :: tr' => stops_at_failure tr'
  end.

(** The events of each stage of the pipeline, with the error the stage
    failed with, if any. *)
Definition reading (E : env) (failure : option js_error) : list event :=
  [Invoke (ReadFile (dog_txt E)); Done (ReadFile (dog_txt E)) failure].

Definition fetching (breed : string) (failure : option js_error) : list event :=
  [Invoke (Http "GET" (dog_url breed)); Done (Http "GET" (dog_url breed)) failure].

Definition writing (E : env) (v : value) (failure : option js_error)
    : list event :=
  [Invoke (WriteFile (dog_image_txt E) v);
   Done (WriteFile (dog_image_txt E) v) failure].

Definition log_breed (breed : string) : event :=
  ConsoleLog [VString "Dog breed:"; VString breed].

Definition log_url (v : value) : event :=
  ConsoleLog [VString "Dog image URL:"; v].

Definition log_saved : event :=
  ConsoleLog [VString "Dog image URL saved to dog-image.txt"].

(** ** Example environments *)

(** A directory ["/app"] whose file reads and writes meet no fault, and
    a network that gives the same answer to every request. *)
Definition example_env (answer : net_answer) : env :=
  {| dirname := "/app";
     read_fault := fun _ => None;
     write_fault := fun _ => None;
     write_fault_after := fun _ => None;
     net := fun _ => answer;
     http_error := fun r =>
       {| err_name := "Error"; err_message := "Not Found";
          err_props := [("status", VNumber (status r))] |};
     arg_type_error := fun name v =>
       {| err_name := "TypeError";
          err_message := "The " +:+ name +:+ " argument must be of type string";
          err_props := [("code", VString "ERR_INVALID_ARG_TYPE")] |} |}.

Definition hound_files : gmap string string := {[ "/app/dog.txt" := "hound" ]}.

Definition ok_response : response :=
  {| status := 200;
     body := VObject [("message", VString "https://images.dog.ceo/x.jpg");
                      ("status", VString "success")] |}.

Definition no_message_response : response :=
  {| status := 200; body := VObject [("status", VString "success")] |}.

Definition not_found_response : response :=
  {| status := 404;
     body := VObject [("status", VString "error");
                      ("message", VString "Breed not found (master breed does not exist)");
                      ("code", VNumber 404)] |}.

Definition null_body_response : response := {| status := 200; body := VNull |}.

(** An output file that already has content. *)
Definition stale_files : gmap string string :=
  <["/app/dog-image.txt" := "https://images.dog.ceo/old.jpg"]> hound_files.

(** An input file whose content has spaces and reserved characters. *)
Definition untidy_files : gmap string string :=
  {[ "/app/dog.txt" := " St. Bernard/50% & more? " ]}.

(** The events of the operations alone, without the console lines. *)
Definition op_events (tr : list event) : list event :=
  omap (fun e => match e with
                 | Invoke _ | Done _ _ => Some e
                 | ConsoleLog _ | ConsoleError _ => None
                 end) tr.

(** A value that [fs.writeFile] accepts as data. *)
Definition is_string (v : value) : bool :=
  match v with VString _ => true | _ => false end.

(** The second of two environments gives a run from the files [fs] the
    same answers as the first: the same directory, the same fault or
    none on reading the input, the same answer of the API to the request
    for the breed read, the same fault or none on writing the output,
    the same refusal of data that is not a string. *)
Definition same_answers (E1 E2 : env) (fs : gmap string string) : Prop :=
  dirname E2 = dirname E1 /\
  read_fault E2 (dog_txt E1) = read_fault E1 (dog_txt E1) /\
  (forall breed,
     read_result E1 (dog_txt E1) fs = inr breed ->
     http_result E2 (superagent_get (dog_url breed))
     = http_result E1 (superagent_get (dog_url breed))) /\
  write_fault E2 (dog_image_txt E1) = write_fault E1 (dog_image_txt E1) /\
  write_fault_after E2 (dog_image_txt E1)
  = write_fault_after E1 (dog_image_txt E1) /\
  (forall v, arg_type_error E2 "data" v = arg_type_error E1 "data" v).

(** The files with the output file holding [w], if [w] is some content. *)
Definition with_output (E : env) (w : option string) (fs : gmap string string)
    : gmap string string :=
  match w with
  | None => fs
  | Some c => <[dog_image_txt E := c]> fs
  end.

(** ** More example environments *)

Definition eacces (file : string) : js_error :=
  {| err_name := "Error";
     err_message := "EACCES: permission denied, open '" +:+ file +:+ "'";
     err_props := [("errno", VNumber (-13)); ("code", VString "EACCES");
                   ("syscall", VString "open"); ("path", VString file)] |}.

(** The directory ["/app"] when nothing in it can be written. *)
Definition read_only_env (answer : net_answer) : env :=
  {| dirname := "/app";
     read_fault := fun _ => None;
     write_fault := fun file => Some (eacces file);
     write_fault_after := fun _ => None;
     net := fun _ => answer;
     http_error := http_error (example_env answer);
     arg_type_error := arg_type_error (example_env answer) |}.

Definition enotfound : js_error :=
  {| err_name := "Error";
     err_message := "getaddrinfo ENOTFOUND dog.ceo";
     err_props := [("errno", VNumber (-3008)); ("code", VString "ENOTFOUND");
                   ("syscall", VString "getaddrinfo");
                   ("hostname", VString "dog.ceo")] |}.

(** No network. *)
Definition offline : net_answer := NetFail enotfound.

(** A 2xx answer whose [message] is a list of URLs. *)
Definition array_message_response : response :=
  {| status := 200;
     body := VObject [("message",
                       VArray [VString "https://images.dog.ceo/a.jpg";
                               VString "https://images.dog.ceo/b.jpg"]);
                      ("status", VString "success")] |}.

Definition enospc (file : string) : js_error :=
  {| err_name := "Error";
     err_message := "ENOSPC: no space left on device, write";
     err_props := [("errno", VNumber (-28)); ("code", VString "ENOSPC");
                   ("syscall", VString "write")] |}.

(** The directory ["/app"] on a full disk: a file can be opened, and so
    emptied, but nothing can be written to it. *)
Definition full_disk_env (answer : net_answer) : env :=
  {| dirname := "/app";
     read_fault := fun _ => None;
     write_fault := fun file => Some (enospc file);
     write_fault_after := fun _ => Some 0%nat;
     net := fun _ => answer;
     http_error := http_error (example_env answer);
     arg_type_error := arg_type_error (example_env answer) |}.

(** The network of [example_env] seen again later: the same answer to
    the request for hounds, no answer to any other request. *)
Definition later_env (answer : net_answer) : env :=
  {| dirname := "/app";
     read_fault := fun _ => None;
     write_fault := fun _ => None;
     write_fault_after := fun _ => None;
     net := fun url =>
       if String.eqb url "https://dog.ceo/api/breed/hound/images/random"
       then answer else NetFail enotfound;
     http_error := http_error (example_env answer);
     arg_type_error := arg_type_error (example_env answer) |}.

(** Two more files beside the input. *)
Definition crowded_files : gmap string string :=
  <["/app/notes.txt" := "keep me"]>
    (<["/app/dog-image.txt" := "https://images.dog.ceo/old.jpg"]> hound_files).

(** ** The three awaited stages as functions of the environment *)

Ltac unfold_run :=
  unfold await, event_loop, readFilePro, writeFilePro, request_then, new_Promise,
    fs_readFile, fs_writeFile, request_end, complete_read, complete_write,
    complete_http, get_prop, console_log, console_error, try_catch,
    mbind, M_bind, bind, after, mret, M_ret, ret, throw, emit.

Lemma await_readFilePro E file fs :
  await (readFilePro E file) fs =
  Run (match read_result E file fs with inl e => Throw e | inr s => Ok s end)
      fs
      [Invoke (ReadFile file);
       Done (ReadFile file) (failure_of (read_result E file fs))].
Proof.
  unfold_run. cbn. destruct (read_result E file fs); reflexivity.
Qed.

Lemma await_request_then E req fs :
  await (request_then E req) fs =
  Run (match http_result E req with inl e => Throw e | inr res => Ok res end)
      fs
      [Invoke (Http (req_method req) (req_url req));
       Done (Http (req_method req) (req_url req))
            (failure_of (http_result E req))].
Proof.
  unfold_run. cbn. destruct (http_result E req); reflexivity.
Qed.

Lemma await_writeFilePro_string E file s fs :
  await (writeFilePro E file (VString s)) fs =
  match write_fault E file with
  | Some e =>
      Run (Throw e) (after_write_fault E file s fs)
          [Invoke (WriteFile file (VString s));
           Done (WriteFile file (VString s)) (Some e)]
  | None =>
      Run (Ok (VString "success")) (<[file := s]> fs)
          [Invoke (WriteFile file (VString s));
           Done (WriteFile file (VString s)) None]
  end.
Proof.
  unfold_run. cbn. destruct (write_fault E file); reflexivity.
Qed.

Lemma await_writeFilePro_other E file v fs :
  (forall s, v <> VString s) ->
  await (writeFilePro E file v) fs =
  Run (Throw (arg_type_error E "data" v)) fs
      [Invoke (WriteFile file v);
       Done (WriteFile file v) (Some (arg_type_error E "data" v))].
Proof.
  intros Hv. unfold_run. destruct v; cbn; try reflexivity.
  now destruct (Hv s).
Qed.

(** ** The runs of [getDogPic], of the top-level block and of the
    callback script, case by case *)

Lemma getDogPic_try_run E fs :
  getDogPic_try E fs =
  match read_result E (dog_txt E) fs with
  | inl e => Run (Throw e) fs (reading E (Some e))
  | inr breed =>
      match http_result E (superagent_get (dog_url breed)) with
      | inl e =>
          Run (Throw e) fs
              (reading E None ++ log_breed breed :: fetching breed (Some e))
      | inr res =>
          let fetched := (reading E None ++ log_breed breed :: fetching breed None)%list in
          match prop (body res) "message" with
          | Throw e => Run (Throw e) fs fetched
          | Ok (VString m) =>
              match write_fault E (dog_image_txt E) with
              | Some e =>
                  Run (Throw e) (after_write_fault E (dog_image_txt E) m fs)
                      (fetched ++ log_url (VString m)
                         :: writing E (VString m) (Some e))
              | None =>
                  Run (Ok (VString "Step: 2: ready!"))
                      (<[dog_image_txt E := m]> fs)
                      (fetched ++ log_url (VString m)
                         :: writing E (VString m) None ++ [log_saved])
              end
          | Ok v =>
              let e := arg_type_error E "data" v in
              Run (Throw e) fs (fetched ++ log_url v :: writing E v (Some e))
          end
      end
  end.
Proof.
  unfold getDogPic_try, dog_txt, dog_image_txt, dog_url, reading, fetching,
    writing, log_breed, log_url, log_saved.
  unfold_run. cbn.
  destruct (read_result E _ fs) as [e|breed]; cbn; [reflexivity|].
  destruct (http_result E _) as [e|res]; cbn; [reflexivity|].
  destruct (prop (body res) "message") as [v|e]; cbn; [|reflexivity].
  destruct v; cbn; try reflexivity.
  destruct (write_fault E _); reflexivity.
Qed.

Lemma getDogPic_run E fs :
  getDogPic E fs =
  match getDogPic_try E fs with
  | Run (Ok a) fs' tr => Run (Ok a) fs' tr
  | Run (Throw e) fs' tr => Run (Throw (new_Error (err_message e))) fs' tr
  end.
Proof.
  unfold getDogPic, try_catch, throw, after.
  destruct (getDogPic_try E fs) as [[a|e] fs' tr]; [reflexivity|].
  now rewrite app_nil_r.
Qed.

Lemma main_run E fs :
  main E fs =
  match getDogPic E fs with
  | Run (Ok msg) fs' tr =>
      Run (Ok tt) fs'
          (ConsoleLog [VString "Step 1: will get dog pics!"] :: tr
             ++ [ConsoleLog [msg];
                 ConsoleLog [VString "Step 3: done getting dog pics!"]])
  | Run (Throw e) fs' tr =>
      Run (Ok tt) fs'
          (ConsoleLog [VString "Step 1: will get dog pics!"] :: tr
             ++ [ConsoleError
                   [VObject [("asyncError", VString (err_message e))]]])
  end.
Proof.
  unfold main.
  unfold console_log, console_error, try_catch, mbind, M_bind, bind, after, emit.
  destruct (getDogPic E fs) as [[msg|e] fs' tr]; reflexivity.
Qed.

Lemma callback_main_run E fs :
  callback_main E fs =
  match read_result E (dog_txt E) fs with
  | inl e =>
      Run (Ok tt) fs
          (reading E (Some e)
             ++ [ConsoleError [VString "Error reading file:"; error_value e]])
  | inr breed =>
      match http_result E (superagent_get (dog_url breed)) with
      | inl e =>
          Run (Ok tt) fs
              (reading E None ++ log_breed breed :: fetching breed (Some e)
                 ++ [ConsoleError [VString "Error fetching dog image:";
                                   VString (err_message e)]])
      | inr res =>
          let fetched := (reading E None ++ log_breed breed :: fetching breed None)%list in
          match prop (body res) "message" with
          | Throw e => Run (Throw e) fs fetched
          | Ok (VString m) =>
              match write_fault E (dog_image_txt E) with
              | Some e =>
                  Run (Ok tt) (after_write_fault E (dog_image_txt E) m fs)
                      (fetched ++ log_url (VString m)
                         :: writing E (VString m) (Some e)
                         ++ [ConsoleError [VString "Error writing file:";
                                           error_value e]])
              | None =>
                  Run (Ok tt) (<[dog_image_txt E := m]> fs)
                      (fetched ++ log_url (VString m)
                         :: writing E (VString m) None ++ [log_saved])
              end
          | Ok v =>
              let e := arg_type_error E "data" v in
              Run (Throw e) fs (fetched ++ log_url v :: writing E v (Some e))
          end
      end
  end.
Proof.
  unfold callback_main, dog_txt, dog_image_txt, dog_url, reading, fetching,
    writing, log_breed, log_url, log_saved.
  unfold_run. cbn.
  destruct (read_result E _ fs) as [e|breed]; cbn; [reflexivity|].
  destruct (http_result E _) as [e|res]; cbn; [reflexivity|].
  destruct (prop (body res) "message") as [v|e]; cbn; [|reflexivity].
  destruct v; cbn; try reflexivity.
  destruct (write_fault E _); reflexivity.
Qed.

(** ** Two runs written out *)

Example hound_run :
  events (main (example_env (NetResponse ok_response)) hound_files)
  = [ConsoleLog [VString "Step 1: will get dog pics!"];
     Invoke (ReadFile "/app/dog.txt");
     Done (ReadFile "/app/dog.txt") None;
     ConsoleLog [VString "Dog breed:"; VString "hound"];
     Invoke (Http "GET" "https://dog.ceo/api/breed/hound/images/random");
     Done (Http "GET" "https://dog.ceo/api/breed/hound/images/random") None;
     ConsoleLog [VString "Dog image URL:";
                 VString "https://images.dog.ceo/x.jpg"];
     Invoke (WriteFile "/app/dog-image.txt"
                       (VString "https://images.dog.ceo/x.jpg"));
     Done (WriteFile "/app/dog-image.txt"
                     (VString "https://images.dog.ceo/x.jpg")) None;
     ConsoleLog [VString "Dog image URL saved to dog-image.txt"];
     ConsoleLog [VString "Step: 2: ready!"];
     ConsoleLog [VString "Step 3: done getting dog pics!"]] /\
  store (main (example_env (NetResponse ok_response)) hound_files)
    !! "/app/dog-image.txt" = Some "https://images.dog.ceo/x.jpg".
Proof. split; vm_compute; reflexivity. Qed.

Example not_found_run :
  events (main (example_env (NetResponse not_found_response)) hound_files)
  = [ConsoleLog [VString "Step 1: will get dog pics!"];
     Invoke (ReadFile "/app/dog.txt");
     Done (ReadFile "/app/dog.txt") None;
     ConsoleLog [VString "Dog breed:"; VString "hound"];
     Invoke (Http "GET" "https://dog.ceo/api/breed/hound/images/random");
     Done (Http "GET" "https://dog.ceo/api/breed/hound/images/random")
          (Some {| err_name := "Error"; err_message := "Not Found";
                   err_props := [("status", VNumber 404)] |});
     ConsoleError [VObject [("asyncError", VString "Not Found")]]] /\
  store (main (example_env (NetResponse not_found_response)) hound_files)
  = hound_files.
Proof. split; vm_compute; reflexivity. Qed.

(** ** Strings: the paths and the URL *)

Lemma append_inj_l (d a b : string) : d +:+ a = d +:+ b -> a = b.
Proof.
  induction d as [|c d IH]; cbn; [trivial|].
  intros H. injection H as H. now apply IH.
Qed.

Lemma dog_txt_not_dog_image_txt E : dog_image_txt E <> dog_txt E.
Proof.
  unfold dog_txt, dog_image_txt. intros H.
  apply append_inj_l in H. discriminate H.
Qed.

Lemma length_append (a b : string) :
  String.length (a +:+ b) = (String.length a + String.length b)%nat.
Proof.
  induction a as [|c a IH]; simpl; [reflexivity|].
  f_equal. exact IH.
Qed.

Lemma substring_whole (b c : string) :
  String.substring 0 (String.length b) (b +:+ c) = b.
Proof.
  induction b as [|x b IH]; simpl.
  - now destruct c.
  - f_equal. exact IH.
Qed.

Lemma substring_middle (a b c : string) :
  String.substring (String.length a) (String.length b) (a +:+ b +:+ c) = b.
Proof.
  induction a as [|x a IH]; [exact (substring_whole b c) | exact IH].
Qed.

(** ** The end-to-end properties *)

(** C1: on a run in which the read succeeds, the GET resolves with a
    body that has a field [message], and no operation fails, the Writer
    is invoked exactly once, its argument is the value of that field,
    that value is a string, and the output file ends with exactly that
    string as its content. *)
Theorem success_writes_message E fs breed res v :
  read_result E (dog_txt E) fs = inr breed ->
  http_result E (superagent_get (dog_url breed)) = inr res ->
  prop (body res) "message" = Ok v ->
  failed (events (getDogPic E fs)) = [] ->
  exists m,
    v = VString m /\
    writer_calls (events (getDogPic E fs)) = [(dog_image_txt E, v)] /\
    store (getDogPic E fs) !! dog_image_txt E = Some m /\
    result (getDogPic E fs) = Ok (VString "Step: 2: ready!").
Proof.
  intros Hread Hget Hmsg.
  rewrite getDogPic_run, getDogPic_try_run, Hread, Hget, Hmsg.
  destruct v as [| |m| | | |]; try discriminate.
  destruct (write_fault E (dog_image_txt E)); [discriminate|].
  intros _. exists m. cbn.
  split; [reflexivity|]. split; [reflexivity|].
  split; [apply lookup_insert_eq | reflexivity].
Qed.

Lemma success_writes_message_witness :
  exists m,
    VString "https://images.dog.ceo/x.jpg" = VString m /\
    writer_calls (events (getDogPic (example_env (NetResponse ok_response)) hound_files))
      = [("/app/dog-image.txt", VString "https://images.dog.ceo/x.jpg")] /\
    store (getDogPic (example_env (NetResponse ok_response)) hound_files)
      !! "/app/dog-image.txt" = Some m /\
    result (getDogPic (example_env (NetResponse ok_response)) hound_files)
      = Ok (VString "Step: 2: ready!").
Proof.
  apply (success_writes_message (example_env (NetResponse ok_response))
           hound_files "hound" ok_response).
  - vm_compute. reflexivity.
  - vm_compute. reflexivity.
  - vm_compute. reflexivity.
  - vm_compute. reflexivity.
Defined.

(** C2, as stated, fails: with a 2xx response whose body has no field
    [message], the Writer is invoked, with [undefined]. *)
Lemma missing_message_invokes_writer :
  read_result (example_env (NetResponse no_message_response))
              "/app/dog.txt" hound_files = inr "hound" /\
  is_2xx (status no_message_response) = true /\
  prop (body no_message_response) "message" = Ok VUndefined /\
  ~ (writer_calls
       (events (getDogPic (example_env (NetResponse no_message_response))
                          hound_files)) = []).
Proof.
  split; [vm_compute; reflexivity|].
  split; [reflexivity|]. split; [reflexivity|].
  vm_compute. discriminate.
Qed.

(** C2, amended: when the Fetcher receives a response that is not 2xx,
    or a 2xx response whose body is [null] or [undefined], the Writer is
    never invoked; when it receives a 2xx response whose body lacks the
    field [message], the Writer is invoked once, with [undefined], and
    the refused write leaves the files as they were.  In every one of
    these cases the promise returned by [getDogPic] rejects. *)
Theorem bad_response_rejects E fs breed res :
  read_result E (dog_txt E) fs = inr breed ->
  net E (dog_url breed) = NetResponse res ->
  (is_2xx (status res) = false ->
     writer_calls (events (getDogPic E fs)) = [] /\
     store (getDogPic E fs) = fs /\
     result (getDogPic E fs)
       = Throw (new_Error (err_message (http_error E res)))) /\
  (is_2xx (status res) = true ->
     forall e, prop (body res) "message" = Throw e ->
     writer_calls (events (getDogPic E fs)) = [] /\
     store (getDogPic E fs) = fs /\
     result (getDogPic E fs) = Throw (new_Error (err_message e))) /\
  (is_2xx (status res) = true ->
     prop (body res) "message" = Ok VUndefined ->
     writer_calls (events (getDogPic E fs)) = [(dog_image_txt E, VUndefined)] /\
     store (getDogPic E fs) = fs /\
     result (getDogPic E fs)
       = Throw (new_Error (err_message (arg_type_error E "data" VUndefined)))).
Proof.
  intros Hread Hnet.
  rewrite getDogPic_run, getDogPic_try_run, Hread.
  unfold http_result, superagent_get; cbn [req_url]. rewrite Hnet.
  split; [|split].
  - intros ->. cbn. auto.
  - intros -> e ->. cbn. auto.
  - intros -> ->. cbn. auto.
Qed.

Lemma bad_response_rejects_witness :
  writer_calls
    (events (getDogPic (example_env (NetResponse not_found_response))
                       hound_files)) = [] /\
  result (getDogPic (example_env (NetResponse not_found_response)) hound_files)
    = Throw (new_Error "Not Found") /\
  writer_calls
    (events (getDogPic (example_env (NetResponse no_message_response))
                       hound_files)) = [("/app/dog-image.txt", VUndefined)] /\
  store (getDogPic (example_env (NetResponse no_message_response)) hound_files)
    = hound_files.
Proof.
  pose proof (bad_response_rejects
                (example_env (NetResponse not_found_response)) hound_files
                "hound" not_found_response) as H404.
  pose proof (bad_response_rejects
                (example_env (NetResponse no_message_response)) hound_files
                "hound" no_message_response) as Hnone.
  destruct H404 as [H404 _]; [vm_compute; reflexivity | reflexivity |].
  destruct Hnone as (_ & _ & Hnone); [vm_compute; reflexivity | reflexivity |].
  destruct H404 as (Hw & _ & Hr); [reflexivity|].
  destruct Hnone as (Hw' & Hs' & _); [reflexivity | reflexivity |].
  exact (conj Hw (conj Hr (conj Hw' Hs'))).
Defined.

(** C3: when the Reader fails, no HTTP request is issued, the Writer is
    not invoked and no file is written, in [getDogPic], in the top-level
    block and in the callback script alike. *)
Theorem reader_failure_stops_everything E fs e :
  read_result E (dog_txt E) fs = inl e ->
  (http_requests (events (getDogPic E fs)) = [] /\
   writer_calls (events (getDogPic E fs)) = [] /\
   store (getDogPic E fs) = fs) /\
  (http_requests (events (main E fs)) = [] /\
   writer_calls (events (main E fs)) = [] /\
   store (main E fs) = fs) /\
  (http_requests (events (callback_main E fs)) = [] /\
   writer_calls (events (callback_main E fs)) = [] /\
   store (callback_main E fs) = fs).
Proof.
  intros Hread.
  rewrite main_run, getDogPic_run, getDogPic_try_run, callback_main_run, Hread.
  cbn. auto 10.
Qed.

Lemma reader_failure_stops_everything_witness :
  http_requests (events (main (example_env (NetResponse ok_response)) ∅)) = [] /\
  writer_calls (events (main (example_env (NetResponse ok_response)) ∅)) = [] /\
  store (main (example_env (NetResponse ok_response)) ∅) = ∅.
Proof.
  apply (reader_failure_stops_everything
           (example_env (NetResponse ok_response)) ∅ (enoent "/app/dog.txt")).
  vm_compute. reflexivity.
Defined.

(** The requests of a run in which the Reader has read [breed], in
    [getDogPic] and in the callback script. *)
Lemma requests_after_read E fs breed :
  read_result E (dog_txt E) fs = inr breed ->
  http_requests (events (getDogPic E fs)) = [("GET", dog_url breed)] /\
  http_requests (events (callback_main E fs)) = [("GET", dog_url breed)].
Proof.
  intros Hread.
  rewrite getDogPic_run, getDogPic_try_run, callback_main_run, Hread.
  destruct (http_result E _) as [e|res]; [cbn; auto|].
  destruct (prop (body res) "message") as [v|e]; [|cbn; auto].
  destruct v; try (cbn; auto; fail).
  destruct (write_fault E _); cbn; auto.
Qed.

(** C4: for every breed string the Reader reads, exactly one HTTP
    request is issued, a GET whose URL is the template with the breed
    substituted. *)
Theorem one_get_of_the_template E fs breed :
  read_result E (dog_txt E) fs = inr breed ->
  http_requests (events (getDogPic E fs)) = [("GET", dog_url breed)] /\
  http_requests (events (main E fs)) = [("GET", dog_url breed)].
Proof.
  intros Hread.
  rewrite main_run, getDogPic_run, getDogPic_try_run, Hread.
  destruct (http_result E _) as [e|res]; [cbn; auto|].
  destruct (prop (body res) "message") as [v|e]; [|cbn; auto].
  destruct v; try (cbn; auto; fail).
  destruct (write_fault E _); cbn; auto.
Qed.

Lemma one_get_of_the_template_witness :
  http_requests
    (events (getDogPic (example_env (NetResponse ok_response)) hound_files))
  = [("GET", "https://dog.ceo/api/breed/hound/images/random")].
Proof.
  apply (one_get_of_the_template
           (example_env (NetResponse ok_response)) hound_files "hound").
  vm_compute. reflexivity.
Defined.

Ltac run_cases E :=
  rewrite ?main_run, ?getDogPic_run, ?getDogPic_try_run;
  destruct (read_result E _ _) as [?e|?breed];
  [|destruct (http_result E _) as [?e|?res];
    [|destruct (prop (body _) "message") as [[| |?m| | | |]|?e];
      [| |destruct (write_fault E _) as [?e|]| | | | |]]].

(** C5: in every run of the top-level block, nothing is invoked after
    an operation has failed, every stage is invoked at most once and at
    most one operation fails (no retry), [getDogPic] itself writes
    nothing to [console.error], and the block never throws: on a failure
    of [getDogPic] its handler appends exactly one [console.error] line
    with the message, after which nothing happens.  No error of any kind
    is recovered from: whatever is thrown in the [try] block of
    [getDogPic], the [catch] does nothing but reject with its message,
    and the only call of the Writer there can be in such a run is the
    one that failed;
    and each kind of error (a failed read, a failed request, a body
    whose [message] cannot be read, data that is refused, a failed
    write) ends [getDogPic] where it arises, with the events up to there
    and no other, as a rejection. *)
Theorem failure_short_circuits E fs :
  stops_at_failure (events (main E fs)) = true /\
  (length (reader_calls (events (main E fs))) <= 1)%nat /\
  (length (http_requests (events (main E fs))) <= 1)%nat /\
  (length (writer_calls (events (main E fs))) <= 1)%nat /\
  (length (failed (events (main E fs))) <= 1)%nat /\
  console_errors (events (getDogPic E fs)) = [] /\
  result (main E fs) = Ok tt /\
  match result (getDogPic E fs) with
  | Ok msg =>
      failed (events (main E fs)) = [] /\
      console_errors (events (main E fs)) = []
  | Throw e =>
      events (main E fs)
        = ConsoleLog [VString "Step 1: will get dog pics!"]
            :: events (getDogPic E fs)
            ++ [ConsoleError [VObject [("asyncError", VString (err_message e))]]] /\
      console_errors (events (main E fs))
        = [[VObject [("asyncError", VString (err_message e))]]]
  end /\
  store (main E fs) = store (getDogPic E fs) /\
  (forall e,
     result (getDogPic_try E fs) = Throw e ->
     getDogPic E fs
     = Run (Throw (new_Error (err_message e)))
           (store (getDogPic_try E fs)) (events (getDogPic_try E fs)) /\
     (writer_calls (events (getDogPic E fs)) = [] \/
      exists v,
        writer_calls (events (getDogPic E fs)) = [(dog_image_txt E, v)] /\
        failed (events (getDogPic E fs))
        = [(WriteFile (dog_image_txt E) v, e)])) /\
  match read_result E (dog_txt E) fs with
  | inl e =>
      getDogPic E fs
      = Run (Throw (new_Error (err_message e))) fs (reading E (Some e))
  | inr breed =>
      match http_result E (superagent_get (dog_url breed)) with
      | inl e =>
          getDogPic E fs
          = Run (Throw (new_Error (err_message e))) fs
                (reading E None ++ log_breed breed :: fetching breed (Some e))
      | inr res =>
          match prop (body res) "message" with
          | Throw e =>
              getDogPic E fs
              = Run (Throw (new_Error (err_message e))) fs
                    (reading E None ++ log_breed breed :: fetching breed None)
          | Ok (VString m) =>
              match write_fault E (dog_image_txt E) with
              | Some e =>
                  result (getDogPic E fs)
                    = Throw (new_Error (err_message e)) /\
                  events (getDogPic E fs)
                    = (reading E None ++ log_breed breed
                         :: fetching breed None ++ log_url (VString m)
                         :: writing E (VString m) (Some e))%list
              | None => exists a, result (getDogPic E fs) = Ok a
              end
          | Ok v =>
              getDogPic E fs
              = Run (Throw (new_Error
                              (err_message (arg_type_error E "data" v))))
                    fs
                    (reading E None ++ log_breed breed
                       :: fetching breed None ++ log_url v
                       :: writing E v (Some (arg_type_error E "data" v)))
          end
      end
  end.
Proof.
  run_cases E; cbn;
    repeat match goal with
           | |- _ /\ _ => split
           | |- forall e, Throw _ = Throw e -> _ =>
               let H := fresh "H" in intros ? H; injection H as <-
           | |- forall e, Ok _ = Throw e -> _ =>
               let H := fresh "H" in intros ? H; discriminate H
           | |- exists _, _ => eexists
           end;
    first [reflexivity | lia | left; reflexivity
          | right; eexists; split; reflexivity].
Qed.

Lemma failure_short_circuits_witness :
  getDogPic (example_env (NetResponse null_body_response)) hound_files
  = Run (Throw (new_Error "Cannot read properties of null (reading 'message')"))
        (store (getDogPic_try (example_env (NetResponse null_body_response))
                              hound_files))
        (events (getDogPic_try (example_env (NetResponse null_body_response))
                               hound_files)).
Proof.
  destruct (failure_short_circuits
              (example_env (NetResponse null_body_response)) hound_files)
    as (_ & _ & _ & _ & _ & _ & _ & _ & _ & Hcatch & _).
  destruct (Hcatch {| err_name := "TypeError";
                      err_message :=
                        "Cannot read properties of null (reading 'message')";
                      err_props := [] |}) as [Hrun _].
  - vm_compute. reflexivity.
  - exact Hrun.
Defined.


(** The joined requests of the commented-out variant are all in flight
    together: the log of that variant is not [one_at_a_time]. *)
Example three_requests_overlap :
  max_in_flight 0
    (events (three_requests (example_env (NetResponse ok_response)) "hound"
                            hound_files)) = 3%nat /\
  ~ one_at_a_time
      (events (three_requests (example_env (NetResponse ok_response)) "hound"
                              hound_files)).
Proof.
  split; [vm_compute; reflexivity|].
  intros H. vm_compute in H.
  inversion H.
Qed.

(** The files a successful run leaves: the output file replaced. *)
Lemma main_success_store E fs breed res m :
  read_result E (dog_txt E) fs = inr breed ->
  http_result E (superagent_get (dog_url breed)) = inr res ->
  prop (body res) "message" = Ok (VString m) ->
  write_fault E (dog_image_txt E) = None ->
  store (main E fs) = <[dog_image_txt E := m]> fs.
Proof.
  intros Hread Hget Hmsg Hwrite.
  now rewrite main_run, getDogPic_run, getDogPic_try_run,
    Hread, Hget, Hmsg, Hwrite.
Qed.

(** Writing the output file does not change what the Reader reads. *)
Lemma read_result_after_write E fs m :
  read_result E (dog_txt E) (<[dog_image_txt E := m]> fs)
  = read_result E (dog_txt E) fs.
Proof.
  unfold read_result.
  now rewrite lookup_insert_ne by apply dog_txt_not_dog_image_txt.
Qed.

Lemma run_eq {A} (r1 r2 : run A) :
  result r1 = result r2 -> store r1 = store r2 -> events r1 = events r2 ->
  r1 = r2.
Proof. destruct r1, r2; cbn; intros; now subst. Qed.

Lemma with_output_twice E w fs :
  with_output E w (with_output E w fs) = with_output E w fs.
Proof. destruct w; cbn; [apply insert_insert_eq | reflexivity]. Qed.

Lemma with_output_input E w fs :
  with_output E w fs !! dog_txt E = fs !! dog_txt E.
Proof.
  destruct w; cbn; [|reflexivity].
  now rewrite lookup_insert_ne by apply dog_txt_not_dog_image_txt.
Qed.

Lemma same_answers_refl E fs : same_answers E E fs.
Proof. repeat split. Qed.

(** A run of the top-level block depends on the files through the
    content of the input file alone, and all it does to the files is to
    set the content of the output file, or nothing: under the same
    answers and from files with the same input, the result and the
    events are the same and the same is done to the files. *)
Lemma main_depends_on_input E1 E2 fs fs' :
  same_answers E1 E2 fs ->
  fs' !! dog_txt E1 = fs !! dog_txt E1 ->
  exists w,
    store (main E1 fs) = with_output E1 w fs /\
    store (main E2 fs') = with_output E1 w fs' /\
    result (main E2 fs') = result (main E1 fs) /\
    events (main E2 fs') = events (main E1 fs).
Proof.
  intros (Hdir & Hrf & Hnet & Hwf & Hwa & Harg) Hin.
  assert (dog_txt E2 = dog_txt E1) as Htxt by (unfold dog_txt; now rewrite Hdir).
  assert (dog_image_txt E2 = dog_image_txt E1) as Himg
    by (unfold dog_image_txt; now rewrite Hdir).
  assert (read_result E2 (dog_txt E1) fs' = read_result E1 (dog_txt E1) fs)
    as Hread' by (unfold read_result; now rewrite Hrf, Hin).
  rewrite !main_run, !getDogPic_run, !getDogPic_try_run.
  unfold reading, writing, after_write_fault.
  rewrite Htxt, Himg, Hread', Hwf, Hwa.
  destruct (read_result E1 _ fs) as [e|breed] eqn:Hread;
    [now exists None|].
  rewrite (Hnet breed eq_refl).
  destruct (http_result E1 _) as [e|res]; [now exists None|].
  destruct (prop (body res) "message") as [v|e]; [|now exists None].
  destruct v as [| |m| | | |]; try (rewrite Harg; now exists None).
  destruct (write_fault E1 _) as [e|]; [|now exists (Some m)].
  destruct (write_fault_after E1 _) as [n|];
    [now exists (Some (String.substring 0 n m)) | now exists None].
Qed.

(** The files a second run leaves are those the first run left. *)
Lemma main_rerun_store E fs :
  store (main E (store (main E fs))) = store (main E fs).
Proof.
  destruct (main_depends_on_input E E fs fs (same_answers_refl E fs) eq_refl)
    as (w & Hw & _).
  destruct (main_depends_on_input E E fs (with_output E w fs)
              (same_answers_refl E fs) (with_output_input E w fs))
    as (w' & Hw' & Hw2 & _).
  assert (with_output E w fs = with_output E w' fs) as Heq by congruence.
  rewrite Hw, Hw2, Heq.
  apply with_output_twice.
Qed.

(** C7: a second run with the same input and the same answer of the
    API leaves the files exactly as the first run left them; and when
    the stages succeed, the content of the output file after each run
    is the message alone, whatever the file held before. *)
Theorem rerun_leaves_same_content E fs :
  store (main E (store (main E fs))) = store (main E fs) /\
  forall breed res m,
    read_result E (dog_txt E) fs = inr breed ->
    http_result E (superagent_get (dog_url breed)) = inr res ->
    prop (body res) "message" = Ok (VString m) ->
    write_fault E (dog_image_txt E) = None ->
    store (main E fs) !! dog_image_txt E = Some m /\
    store (main E (store (main E fs))) !! dog_image_txt E = Some m.
Proof.
  assert (forall breed res m,
    read_result E (dog_txt E) fs = inr breed ->
    http_result E (superagent_get (dog_url breed)) = inr res ->
    prop (body res) "message" = Ok (VString m) ->
    write_fault E (dog_image_txt E) = None ->
    store (main E fs) = <[dog_image_txt E := m]> fs /\
    store (main E (store (main E fs))) = <[dog_image_txt E := m]> fs) as Hsuccess.
  { intros breed res m Hread Hget Hmsg Hwrite.
    rewrite (main_success_store E fs breed res m) by assumption.
    rewrite (main_success_store E _ breed res m);
      [| now rewrite read_result_after_write | assumption..].
    now rewrite insert_insert_eq. }
  split.
  - apply main_rerun_store.
  - intros breed res m Hread Hget Hmsg Hwrite.
    destruct (Hsuccess breed res m Hread Hget Hmsg Hwrite) as [-> ->].
    split; apply lookup_insert_eq.
Qed.

Lemma rerun_leaves_same_content_witness :
  store (main (example_env (NetResponse ok_response))
           (store (main (example_env (NetResponse ok_response)) stale_files)))
  = store (main (example_env (NetResponse ok_response)) stale_files) /\
  store (main (example_env (NetResponse ok_response)) stale_files)
    !! "/app/dog-image.txt" = Some "https://images.dog.ceo/x.jpg" /\
  store (main (example_env (NetResponse ok_response))
           (store (main (example_env (NetResponse ok_response)) stale_files)))
    !! "/app/dog-image.txt" = Some "https://images.dog.ceo/x.jpg".
Proof.
  destruct (rerun_leaves_same_content
              (example_env (NetResponse ok_response)) stale_files)
    as [Hsame Hcontent].
  split; [exact Hsame|].
  apply (Hcontent "hound" ok_response "https://images.dog.ceo/x.jpg").
  - vm_compute. reflexivity.
  - vm_compute. reflexivity.
  - vm_compute. reflexivity.
  - vm_compute. reflexivity.
Defined.

(** C8: whatever the input file contains, the request is issued, and
    its URL is the fixed prefix, then the whole content unchanged, then
    the fixed suffix: the content is not checked, not trimmed and not
    escaped.  The same holds in the callback script. *)
Theorem breed_used_verbatim E fs content :
  read_fault E (dog_txt E) = None ->
  fs !! dog_txt E = Some content ->
  http_requests (events (getDogPic E fs))
    = [("GET", "https://dog.ceo/api/breed/" +:+ content +:+ "/images/random")] /\
  http_requests (events (callback_main E fs))
    = [("GET", "https://dog.ceo/api/breed/" +:+ content +:+ "/images/random")] /\
  String.length ("https://dog.ceo/api/breed/" +:+ content +:+ "/images/random")
    = (26 + String.length content + 14)%nat /\
  String.substring 26 (String.length content)
    ("https://dog.ceo/api/breed/" +:+ content +:+ "/images/random") = content.
Proof.
  intros Hfault Hfile.
  assert (read_result E (dog_txt E) fs = inr content) as Hread.
  { unfold read_result. now rewrite Hfault, Hfile. }
  split; [apply (requests_after_read E fs content Hread)|].
  split; [apply (requests_after_read E fs content Hread)|].
  split.
  - rewrite !length_append. cbn. lia.
  - exact (substring_middle "https://dog.ceo/api/breed/" content "/images/random").
Qed.

Lemma breed_used_verbatim_witness :
  http_requests
    (events (getDogPic (example_env (NetResponse ok_response)) untidy_files))
  = [("GET", "https://dog.ceo/api/breed/ St. Bernard/50% & more? /images/random")].
Proof.
  apply (breed_used_verbatim
           (example_env (NetResponse ok_response)) untidy_files
           " St. Bernard/50% & more? ").
  - reflexivity.
  - vm_compute. reflexivity.
Defined.

(** C9: whenever [getDogPic] rejects, an error [e] was thrown inside
    its [try] block, and what reaches the caller is a new [Error] whose
    only content is the message of [e]: the name is [Error] whatever the
    kind of [e] was, and no other field of [e] is kept; the top-level
    block logs that message alone, under the key [asyncError]. *)
Theorem caller_sees_fresh_error E fs e' :
  result (getDogPic E fs) = Throw e' ->
  exists e,
    result (getDogPic_try E fs) = Throw e /\
    e' = new_Error (err_message e) /\
    err_name e' = "Error" /\
    err_message e' = err_message e /\
    err_props e' = [] /\
    console_errors (events (main E fs))
      = [[VObject [("asyncError", VString (err_message e))]]].
Proof.
  revert e'. run_cases E; cbn; intros e' H; try discriminate H;
    injection H as <-; eexists; repeat split.
Qed.

Lemma caller_sees_fresh_error_witness :
  exists e,
    result (getDogPic_try (example_env (NetResponse null_body_response))
                          hound_files) = Throw e /\
    new_Error "Cannot read properties of null (reading 'message')"
      = new_Error (err_message e) /\
    err_name (new_Error "Cannot read properties of null (reading 'message')")
      = "Error" /\
    err_message (new_Error "Cannot read properties of null (reading 'message')")
      = err_message e /\
    err_props (new_Error "Cannot read properties of null (reading 'message')")
      = [] /\
    console_errors
      (events (main (example_env (NetResponse null_body_response)) hound_files))
      = [[VObject [("asyncError", VString (err_message e))]]].
Proof.
  apply (caller_sees_fresh_error
           (example_env (NetResponse null_body_response)) hound_files).
  vm_compute. reflexivity.
Defined.

(** C10: a write that succeeds resolves the promise of [writeFilePro]
    with the string ["success"], whatever the path, the data and the
    files; and in a successful run of the pipeline what follows the
    write is fixed, one log line and the return value of [getDogPic],
    neither of which is that resolution value. *)
Theorem writer_resolves_with_success E :
  (forall file data fs,
     write_fault E file = None ->
     result (await (writeFilePro E file (VString data)) fs)
       = Ok (VString "success") /\
     store (await (writeFilePro E file (VString data)) fs)
       = <[file := data]> fs) /\
  (forall fs breed res m,
     read_result E (dog_txt E) fs = inr breed ->
     http_result E (superagent_get (dog_url breed)) = inr res ->
     prop (body res) "message" = Ok (VString m) ->
     write_fault E (dog_image_txt E) = None ->
     result (getDogPic E fs) = Ok (VString "Step: 2: ready!") /\
     events (getDogPic E fs)
       = (reading E None ++ log_breed breed :: fetching breed None
            ++ log_url (VString m) :: writing E (VString m) None
            ++ [log_saved])%list /\
     console_logs (events (main E fs))
       = [[VString "Step 1: will get dog pics!"];
          [VString "Dog breed:"; VString breed];
          [VString "Dog image URL:"; VString m];
          [VString "Dog image URL saved to dog-image.txt"];
          [VString "Step: 2: ready!"];
          [VString "Step 3: done getting dog pics!"]]).
Proof.
  split.
  - intros file data fs Hfile.
    now rewrite await_writeFilePro_string, Hfile.
  - intros fs breed res m Hread Hget Hmsg Hwrite.
    rewrite main_run, getDogPic_run, getDogPic_try_run,
      Hread, Hget, Hmsg, Hwrite.
    cbn. repeat split.
Qed.

Lemma writer_resolves_with_success_witness :
  result (await (writeFilePro (example_env offline)
                   "/tmp/any.txt" (VString "anything")) ∅)
    = Ok (VString "success") /\
  store (await (writeFilePro (example_env offline)
                  "/tmp/any.txt" (VString "anything")) ∅)
    = <["/tmp/any.txt" := "anything"]> ∅ /\
  result (getDogPic (example_env (NetResponse ok_response)) hound_files)
    = Ok (VString "Step: 2: ready!").
Proof.
  destruct (writer_resolves_with_success (example_env offline)) as [Hw _].
  destruct (writer_resolves_with_success
              (example_env (NetResponse ok_response))) as [_ Hp].
  destruct (Hw "/tmp/any.txt" "anything" ∅) as [Hr Hs]; [reflexivity|].
  destruct (Hp hound_files "hound" ok_response "https://images.dog.ceo/x.jpg")
    as (Hg & _).
  - vm_compute. reflexivity.
  - vm_compute. reflexivity.
  - vm_compute. reflexivity.
  - reflexivity.
  - exact (conj Hr (conj Hs Hg)).
Defined.

(** ** Further properties of the promisified helpers *)

Lemma append_inj_r (a b s : string) : a +:+ s = b +:+ s -> a = b.
Proof.
  revert b. induction a as [|x a IH]; intros [|y b] H.
  - reflexivity.
  - apply (f_equal String.length) in H.
    rewrite (length_append (String y b) s) in H.
    change ("" +:+ s) with s in H. simpl in H. lia.
  - apply (f_equal String.length) in H.
    rewrite (length_append (String x a) s) in H.
    change ("" +:+ s) with s in H. simpl in H. lia.
  - change (String x (a +:+ s) = String y (b +:+ s)) in H.
    injection H as -> H. f_equal. now apply IH.
Qed.

(** X1: the promisified helpers hand on the error of [fs] itself, with
    its name and all its fields: an awaited [readFilePro] rejects with
    the very error the read met, and leaves the files as they were; an
    awaited [writeFilePro] rejects with the very error the write met. *)
Theorem helpers_pass_errors_through E file data fs e :
  (read_result E file fs = inl e ->
     result (await (readFilePro E file) fs) = Throw e /\
     store (await (readFilePro E file) fs) = fs) /\
  (write_fault E file = Some e ->
     result (await (writeFilePro E file (VString data)) fs) = Throw e).
Proof.
  split.
  - intros H. rewrite await_readFilePro, H. auto.
  - intros H. now rewrite await_writeFilePro_string, H.
Qed.

Lemma helpers_pass_errors_through_witness :
  result (await (readFilePro (example_env offline) "/app/dog.txt") ∅)
    = Throw (enoent "/app/dog.txt") /\
  result (await (writeFilePro (read_only_env offline) "/app/dog-image.txt"
                   (VString "x")) hound_files)
    = Throw (eacces "/app/dog-image.txt").
Proof.
  split.
  - apply (helpers_pass_errors_through (example_env offline) "/app/dog.txt"
             "" ∅ (enoent "/app/dog.txt")).
    vm_compute. reflexivity.
  - apply (helpers_pass_errors_through (read_only_env offline)
             "/app/dog-image.txt" "x" hound_files (eacces "/app/dog-image.txt")).
    reflexivity.
Defined.

(** X2: what [writeFilePro] wrote, [readFilePro] reads back: after an
    awaited write of a string to a path, an awaited read of that path
    resolves with exactly that string, whatever the path held before. *)
Theorem write_then_read_back E file data fs :
  write_fault E file = None ->
  read_fault E file = None ->
  result ((await (writeFilePro E file (VString data));;
           await (readFilePro E file)) fs) = Ok data.
Proof.
  intros Hw Hr.
  unfold mbind, M_bind, bind.
  rewrite await_writeFilePro_string, Hw. unfold after.
  rewrite await_readFilePro. unfold read_result.
  now rewrite Hr, lookup_insert_eq.
Qed.

Lemma write_then_read_back_witness :
  result ((await (writeFilePro (example_env offline) "/app/dog.txt"
                    (VString "beagle"));;
           await (readFilePro (example_env offline) "/app/dog.txt"))
            hound_files) = Ok "beagle".
Proof.
  apply (write_then_read_back (example_env offline) "/app/dog.txt" "beagle"
           hound_files); reflexivity.
Defined.

(** X3: an awaited [writeFilePro] changes the one path it is given and
    nothing else: a read of any other path gives afterwards what it gave
    before, whether the write succeeded or not. *)
Theorem write_leaves_other_files E file other v fs :
  other <> file ->
  read_result E other (store (await (writeFilePro E file v) fs))
  = read_result E other fs.
Proof.
  intros Hne. destruct v;
    try (rewrite await_writeFilePro_other by discriminate; reflexivity).
  rewrite await_writeFilePro_string.
  unfold read_result, after_write_fault.
  destruct (write_fault E file); [destruct (write_fault_after E file)|];
    cbn [store]; try reflexivity;
    now rewrite lookup_insert_ne by congruence.
Qed.

Lemma write_leaves_other_files_witness :
  read_result (example_env offline) "/app/dog.txt"
    (store (await (writeFilePro (example_env offline) "/app/dog-image.txt"
                     (VString "x")) hound_files))
  = read_result (example_env offline) "/app/dog.txt" hound_files.
Proof.
  apply (write_leaves_other_files (example_env offline) "/app/dog-image.txt"
           "/app/dog.txt" (VString "x") hound_files).
  discriminate.
Defined.

(** X4: calling a promisified helper never throws.  [fs.writeFile]
    itself throws in the call when the data is not a string, and the
    callback script calls it bare; inside [writeFilePro] the same
    exception only rejects the promise returned, and it is the [await]
    that throws it. *)
Theorem helper_calls_never_throw E file v fs :
  (exists p, result (readFilePro E file fs) = Ok p) /\
  (exists p, result (writeFilePro E file v fs) = Ok p) /\
  (is_string v = false ->
     forall B (cb : option js_error -> M B),
       result (fs_writeFile E file v cb fs)
         = Throw (arg_type_error E "data" v) /\
       result (await (writeFilePro E file v) fs)
         = Throw (arg_type_error E "data" v) /\
       store (await (writeFilePro E file v) fs) = fs).
Proof.
  split; [|split].
  - unfold_run. cbn. eauto.
  - unfold_run. destruct v; cbn; eauto.
  - intros Hv B cb. destruct v; try discriminate Hv;
      (split; [reflexivity|]);
      rewrite await_writeFilePro_other by discriminate; auto.
Qed.

Lemma helper_calls_never_throw_witness :
  result (await (writeFilePro (example_env offline) "/app/dog-image.txt"
                   VUndefined) hound_files)
    = Throw (arg_type_error (example_env offline) "data" VUndefined) /\
  store (await (writeFilePro (example_env offline) "/app/dog-image.txt"
                  VUndefined) hound_files) = hound_files.
Proof.
  destruct (helper_calls_never_throw (example_env offline)
              "/app/dog-image.txt" VUndefined hound_files) as (_ & _ & H).
  destruct (H eq_refl unit (fun _ => mret tt)) as (_ & Hr & Hs).
  exact (conj Hr Hs).
Defined.

(** ** Further properties of the two scripts *)

(** Every way a run of either script can go, with the equations of the
    case at hand kept as hypotheses. *)
Ltac script_cases E :=
  rewrite ?main_run, ?getDogPic_run, ?getDogPic_try_run, ?callback_main_run;
  destruct (read_result E _ _) as [?e|?breed] eqn:?Hread;
  [|destruct (http_result E _) as [?e|?res] eqn:?Hget;
    [|destruct (prop (body _) "message") as [[| |?m| | | |]|?e] eqn:?Hmsg;
      [| |destruct (write_fault E _) as [?e|] eqn:?Hwrite| | | | |]]].

(** X5: neither script ever changes a file other than
    [dog-image.txt]; in particular the input file [dog.txt] is left as it
    was, whatever the run does. *)
Theorem only_output_file_changes E fs :
  (forall p, p <> dog_image_txt E ->
     store (main E fs) !! p = fs !! p /\
     store (callback_main E fs) !! p = fs !! p) /\
  store (main E fs) !! dog_txt E = fs !! dog_txt E /\
  store (callback_main E fs) !! dog_txt E = fs !! dog_txt E.
Proof.
  assert (forall p, p <> dog_image_txt E ->
     store (main E fs) !! p = fs !! p /\
     store (callback_main E fs) !! p = fs !! p) as Hframe.
  { intros p Hp. script_cases E; cbn [store]; auto;
      unfold after_write_fault; try destruct (write_fault_after E _); auto;
      rewrite !lookup_insert_ne by congruence; auto. }
  split; [exact Hframe|].
  apply Hframe. intros H. symmetry in H.
  now apply dog_txt_not_dog_image_txt in H.
Qed.

Lemma only_output_file_changes_witness :
  store (main (example_env (NetResponse ok_response)) crowded_files)
    !! "/app/notes.txt" = crowded_files !! "/app/notes.txt" /\
  store (callback_main (example_env (NetResponse ok_response)) crowded_files)
    !! "/app/notes.txt" = crowded_files !! "/app/notes.txt".
Proof.
  destruct (only_output_file_changes
              (example_env (NetResponse ok_response)) crowded_files)
    as [Hframe _].
  apply (Hframe "/app/notes.txt"). discriminate.
Defined.

(** X6: [getDogPic] resolves exactly when the read succeeds, the
    request is answered with a 2xx response, the [message] of its body
    is a string and the write meets no fault; the value it resolves
    with is then always the same string. *)
Theorem getDogPic_resolves_iff E fs v :
  result (getDogPic E fs) = Ok v <->
  v = VString "Step: 2: ready!" /\
  exists breed res m,
    read_result E (dog_txt E) fs = inr breed /\
    http_result E (superagent_get (dog_url breed)) = inr res /\
    prop (body res) "message" = Ok (VString m) /\
    write_fault E (dog_image_txt E) = None.
Proof.
  split.
  - script_cases E; cbn; intros H; try discriminate H.
    injection H as <-. split; [reflexivity|]. now exists breed, res, m.
  - intros (-> & breed & res & m & Hread & Hget & Hmsg & Hwrite).
    now rewrite getDogPic_run, getDogPic_try_run, Hread, Hget, Hmsg, Hwrite.
Qed.

Lemma getDogPic_resolves_iff_witness :
  result (getDogPic (example_env (NetResponse ok_response)) hound_files)
  = Ok (VString "Step: 2: ready!").
Proof.
  apply (getDogPic_resolves_iff (example_env (NetResponse ok_response))
           hound_files (VString "Step: 2: ready!")).
  split; [reflexivity|].
  exists "hound", ok_response, "https://images.dog.ceo/x.jpg".
  repeat split; vm_compute; reflexivity.
Defined.

(** X7: a second run of the top-level block, started from the files
    the first run left and given the same answers as the first (the API
    picks an image at random, so the same answer to the request is a
    condition, not something the program sees to), is the first run
    over again: the same events in the same order and the same files at
    the end. *)
Theorem rerun_replays_the_run E1 E2 fs :
  same_answers E1 E2 fs ->
  main E2 (store (main E1 fs)) = main E1 fs.
Proof.
  intros Hsame.
  destruct (main_depends_on_input E1 E1 fs fs (same_answers_refl E1 fs) eq_refl)
    as (w & Hw & _).
  destruct (main_depends_on_input E1 E2 fs (with_output E1 w fs) Hsame
              (with_output_input E1 w fs))
    as (w' & Hw' & Hw2 & Hres & Hev).
  assert (with_output E1 w fs = with_output E1 w' fs) as Heq by congruence.
  rewrite Hw. apply run_eq; [exact Hres | | exact Hev].
  now rewrite Hw2, Heq, with_output_twice.
Qed.

Lemma rerun_replays_the_run_witness :
  main (later_env (NetResponse ok_response))
       (store (main (example_env (NetResponse ok_response)) stale_files))
  = main (example_env (NetResponse ok_response)) stale_files.
Proof.
  apply (rerun_replays_the_run (example_env (NetResponse ok_response))
           (later_env (NetResponse ok_response)) stale_files).
  repeat split.
  intros breed Hread. vm_compute in Hread. injection Hread as <-.
  reflexivity.
Defined.

(** X8: when the request fails in transport (no answer at all), the
    Writer is never invoked, no file changes, [getDogPic] rejects with a
    new [Error] of the transport error's message, and the top-level
    block logs that message. *)
Theorem transport_failure_rejects E fs breed e :
  read_result E (dog_txt E) fs = inr breed ->
  net E (dog_url breed) = NetFail e ->
  writer_calls (events (main E fs)) = [] /\
  store (main E fs) = fs /\
  result (getDogPic E fs) = Throw (new_Error (err_message e)) /\
  console_errors (events (main E fs))
    = [[VObject [("asyncError", VString (err_message e))]]].
Proof.
  intros Hread Hnet.
  rewrite main_run, getDogPic_run, getDogPic_try_run, Hread.
  unfold http_result, superagent_get; cbn [req_url]. rewrite Hnet.
  cbn. auto.
Qed.

Lemma transport_failure_rejects_witness :
  writer_calls (events (main (example_env offline) hound_files)) = [] /\
  store (main (example_env offline) hound_files) = hound_files /\
  result (getDogPic (example_env offline) hound_files)
    = Throw (new_Error "getaddrinfo ENOTFOUND dog.ceo") /\
  console_errors (events (main (example_env offline) hound_files))
    = [[VObject [("asyncError", VString "getaddrinfo ENOTFOUND dog.ceo")]]].
Proof.
  apply (transport_failure_rejects (example_env offline) hound_files "hound"
           enotfound).
  - vm_compute. reflexivity.
  - reflexivity.
Defined.

(** X9: when the write meets a fault, the Writer has been invoked
    once with the message, [getDogPic] rejects with a new [Error] of the
    fault's message, the line saying the URL was saved is not logged,
    and neither are the lines of steps 2 and 3. *)
Theorem write_fault_rejects E fs breed res m e :
  read_result E (dog_txt E) fs = inr breed ->
  http_result E (superagent_get (dog_url breed)) = inr res ->
  prop (body res) "message" = Ok (VString m) ->
  write_fault E (dog_image_txt E) = Some e ->
  writer_calls (events (main E fs)) = [(dog_image_txt E, VString m)] /\
  result (getDogPic E fs) = Throw (new_Error (err_message e)) /\
  console_logs (events (main E fs))
    = [[VString "Step 1: will get dog pics!"];
       [VString "Dog breed:"; VString breed];
       [VString "Dog image URL:"; VString m]] /\
  console_errors (events (main E fs))
    = [[VObject [("asyncError", VString (err_message e))]]].
Proof.
  intros Hread Hget Hmsg Hwrite.
  rewrite main_run, getDogPic_run, getDogPic_try_run,
    Hread, Hget, Hmsg, Hwrite.
  cbn. auto.
Qed.

Lemma write_fault_rejects_witness :
  result (getDogPic (read_only_env (NetResponse ok_response)) hound_files)
    = Throw (new_Error "EACCES: permission denied, open '/app/dog-image.txt'") /\
  console_errors
    (events (main (read_only_env (NetResponse ok_response)) hound_files))
    = [[VObject [("asyncError",
                  VString "EACCES: permission denied, open '/app/dog-image.txt'")]]].
Proof.
  destruct (write_fault_rejects (read_only_env (NetResponse ok_response))
              hound_files "hound" ok_response "https://images.dog.ceo/x.jpg"
              (eacces "/app/dog-image.txt")) as (_ & Hr & _ & He).
  - vm_compute. reflexivity.
  - vm_compute. reflexivity.
  - vm_compute. reflexivity.
  - reflexivity.
  - exact (conj Hr He).
Defined.

(** X10: when the [message] of a 2xx body is anything but a string (a
    list of URLs, a number, [null], nothing), it is logged as the image
    URL and handed to the Writer all the same; the write is refused, no
    file changes, and [getDogPic] rejects with a new [Error] of the
    refusal's message. *)
Theorem non_string_message_is_refused E fs breed res v :
  read_result E (dog_txt E) fs = inr breed ->
  http_result E (superagent_get (dog_url breed)) = inr res ->
  prop (body res) "message" = Ok v ->
  is_string v = false ->
  console_logs (events (getDogPic E fs))
    = [[VString "Dog breed:"; VString breed]; [VString "Dog image URL:"; v]] /\
  writer_calls (events (getDogPic E fs)) = [(dog_image_txt E, v)] /\
  store (getDogPic E fs) = fs /\
  result (getDogPic E fs)
    = Throw (new_Error (err_message (arg_type_error E "data" v))).
Proof.
  intros Hread Hget Hmsg Hv.
  rewrite getDogPic_run, getDogPic_try_run, Hread, Hget, Hmsg.
  destruct v; try discriminate Hv; cbn; auto.
Qed.

Lemma non_string_message_is_refused_witness :
  writer_calls
    (events (getDogPic (example_env (NetResponse array_message_response))
                       hound_files))
    = [("/app/dog-image.txt",
        VArray [VString "https://images.dog.ceo/a.jpg";
                VString "https://images.dog.ceo/b.jpg"])] /\
  store (getDogPic (example_env (NetResponse array_message_response))
                   hound_files) = hound_files.
Proof.
  destruct (non_string_message_is_refused
              (example_env (NetResponse array_message_response)) hound_files
              "hound" array_message_response
              (VArray [VString "https://images.dog.ceo/a.jpg";
                       VString "https://images.dog.ceo/b.jpg"]))
    as (_ & Hw & Hs & _).
  - vm_compute. reflexivity.
  - vm_compute. reflexivity.
  - reflexivity.
  - reflexivity.
  - exact (conj Hw Hs).
Defined.

(** Membership in a list that is written out. *)
Ltac elem_of_inv H :=
  repeat (rewrite elem_of_cons in H; destruct H as [H|H];
          [try discriminate H|]);
  try (rewrite elem_of_nil in H; destruct H).

(** X11: the line saying the URL was saved is truthful, in both
    scripts: whenever it is logged, a URL was logged as the image URL
    and the output file holds exactly that URL at the end of the run. *)
Theorem saved_line_is_truthful E fs :
  (ConsoleLog [VString "Dog image URL saved to dog-image.txt"]
     ∈ events (main E fs) ->
   exists m,
     ConsoleLog [VString "Dog image URL:"; VString m] ∈ events (main E fs) /\
     store (main E fs) !! dog_image_txt E = Some m) /\
  (ConsoleLog [VString "Dog image URL saved to dog-image.txt"]
     ∈ events (callback_main E fs) ->
   exists m,
     ConsoleLog [VString "Dog image URL:"; VString m]
       ∈ events (callback_main E fs) /\
     store (callback_main E fs) !! dog_image_txt E = Some m).
Proof.
  script_cases E;
    unfold reading, fetching, writing, log_breed, log_url, log_saved; cbn;
    (split; intros H); try (elem_of_inv H; fail);
    (exists m; split;
       [repeat first [apply list_elem_of_here | apply list_elem_of_further]
       | apply lookup_insert_eq]).
Qed.

Lemma saved_line_is_truthful_witness :
  exists m,
    ConsoleLog [VString "Dog image URL:"; VString m]
      ∈ events (main (example_env (NetResponse ok_response)) hound_files) /\
    store (main (example_env (NetResponse ok_response)) hound_files)
      !! dog_image_txt (example_env (NetResponse ok_response)) = Some m.
Proof.
  destruct (saved_line_is_truthful
              (example_env (NetResponse ok_response)) hound_files) as [H _].
  apply H. vm_compute.
  do 9 apply list_elem_of_further. apply list_elem_of_here.
Defined.

(** X12: the callback script and the top-level block of [index.js]
    perform the same operations with the same outcomes in the same
    order, and leave the same files, in every environment. *)
Theorem callback_script_does_the_same E fs :
  op_events (events (callback_main E fs)) = op_events (events (main E fs)) /\
  store (callback_main E fs) = store (main E fs).
Proof.
  script_cases E; cbn; auto.
Qed.

(** X13: the callback script throws, out of a callback and so past
    every handler, exactly when the request was answered with a 2xx
    response whose [message] cannot be read or is not a string; it then
    has written nothing to [console.error] and changed no file.  The
    top-level block of [index.js] never throws. *)
Theorem callback_exception_is_unhandled E fs e :
  (result (callback_main E fs) = Throw e <->
   exists breed res,
     read_result E (dog_txt E) fs = inr breed /\
     http_result E (superagent_get (dog_url breed)) = inr res /\
     (prop (body res) "message" = Throw e \/
      exists v, prop (body res) "message" = Ok v /\
                is_string v = false /\ e = arg_type_error E "data" v)) /\
  (result (callback_main E fs) = Throw e ->
   console_errors (events (callback_main E fs)) = [] /\
   store (callback_main E fs) = fs /\
   result (main E fs) = Ok tt).
Proof.
  split; [split|].
  - script_cases E; cbn; intros H; try discriminate H; injection H as <-;
      exists breed, res; (split; [reflexivity|]); (split; [assumption|]);
      first [left; assumption
            | right; eexists; split; [eassumption | split; reflexivity]].
  - intros (breed & res & Hread & Hget & [Hmsg | (v & Hmsg & Hv & ->)]);
      rewrite callback_main_run, Hread, Hget, Hmsg; [reflexivity|].
    destruct v; try discriminate Hv; reflexivity.
  - script_cases E; cbn; intros H; try discriminate H; auto.
Qed.

Lemma callback_exception_is_unhandled_witness :
  console_errors
    (events (callback_main (example_env (NetResponse null_body_response))
                           hound_files)) = [] /\
  store (callback_main (example_env (NetResponse null_body_response))
                       hound_files) = hound_files /\
  result (main (example_env (NetResponse null_body_response)) hound_files)
    = Ok tt.
Proof.
  destruct (callback_exception_is_unhandled
              (example_env (NetResponse null_body_response)) hound_files
              {| err_name := "TypeError";
                 err_message :=
                   "Cannot read properties of null (reading 'message')";
                 err_props := [] |}) as [_ H].
  apply H. vm_compute. reflexivity.
Defined.

(** X14: the callback script reports the failure of each stage on
    [console.error] under that stage's own label and then ends
    normally: a failed read and a failed write are logged as the whole
    error object, a failed request as its message alone; a run in which
    every stage succeeds writes nothing to [console.error]. *)
Theorem callback_reports_by_stage E fs :
  (forall e,
     read_result E (dog_txt E) fs = inl e ->
     console_errors (events (callback_main E fs))
       = [[VString "Error reading file:"; error_value e]] /\
     result (callback_main E fs) = Ok tt) /\
  (forall breed e,
     read_result E (dog_txt E) fs = inr breed ->
     http_result E (superagent_get (dog_url breed)) = inl e ->
     console_errors (events (callback_main E fs))
       = [[VString "Error fetching dog image:"; VString (err_message e)]] /\
     result (callback_main E fs) = Ok tt) /\
  (forall breed res m,
     read_result E (dog_txt E) fs = inr breed ->
     http_result E (superagent_get (dog_url breed)) = inr res ->
     prop (body res) "message" = Ok (VString m) ->
     match write_fault E (dog_image_txt E) with
     | Some e =>
         console_errors (events (callback_main E fs))
           = [[VString "Error writing file:"; error_value e]]
     | None => console_errors (events (callback_main E fs)) = []
     end /\
     result (callback_main E fs) = Ok tt).
Proof.
  split; [|split].
  - intros e Hread. now rewrite callback_main_run, Hread.
  - intros breed e Hread Hget. now rewrite callback_main_run, Hread, Hget.
  - intros breed res m Hread Hget Hmsg.
    rewrite callback_main_run, Hread, Hget, Hmsg.
    now destruct (write_fault E (dog_image_txt E)).
Qed.

Lemma callback_reports_by_stage_witness :
  console_errors (events (callback_main (example_env offline) ∅))
    = [[VString "Error reading file:"; error_value (enoent "/app/dog.txt")]] /\
  console_errors (events (callback_main (example_env offline) hound_files))
    = [[VString "Error fetching dog image:";
        VString "getaddrinfo ENOTFOUND dog.ceo"]].
Proof.
  destruct (callback_reports_by_stage (example_env offline) ∅) as (Hr & _).
  destruct (callback_reports_by_stage (example_env offline) hound_files)
    as (_ & Hf & _).
  destruct (Hr (enoent "/app/dog.txt")) as [Hr' _]; [vm_compute; reflexivity|].
  destruct (Hf "hound" enotfound) as [Hf' _];
    [vm_compute; reflexivity | reflexivity |].
  exact (conj Hr' Hf').
Defined.

(** X15: the URL template keeps breeds apart: two different breed
    strings never give the same request URL. *)
Theorem dog_url_keeps_breeds_apart (a b : string) :
  a <> b -> dog_url a <> dog_url b.
Proof.
  intros Hne H. apply Hne. unfold dog_url in H.
  apply append_inj_l in H. now apply append_inj_r in H.
Qed.

Lemma dog_url_keeps_breeds_apart_witness :
  dog_url "hound" <> dog_url "hound/afghan".
Proof.
  apply (dog_url_keeps_breeds_apart "hound" "hound/afghan"). discriminate.
Defined.

(** X16: the top-level block always logs the line of step 1 first;
    it logs the lines of steps 2 and 3, as its last two lines, when
    [getDogPic] resolves, and neither of them when [getDogPic]
    rejects. *)
Theorem step_lines E fs :
  head (events (main E fs))
    = Some (ConsoleLog [VString "Step 1: will get dog pics!"]) /\
  match result (getDogPic E fs) with
  | Ok _ =>
      exists tr : list event,
        events (main E fs)
        = (tr ++ [ConsoleLog [VString "Step: 2: ready!"];
                  ConsoleLog [VString "Step 3: done getting dog pics!"]])%list
  | Throw _ =>
      ~ (ConsoleLog [VString "Step: 2: ready!"] ∈ events (main E fs)) /\
      ~ (ConsoleLog [VString "Step 3: done getting dog pics!"]
           ∈ events (main E fs))
  end.
Proof.
  script_cases E;
    unfold reading, fetching, writing, log_breed, log_url, log_saved; cbn;
    (split; [reflexivity|]);
    try (split; intros H; elem_of_inv H; fail).
  eexists (_ :: _ :: _ :: _ :: _ :: _ :: _ :: _ :: _ :: _ :: []).
  reflexivity.
Qed.

(** X17: the nested callbacks of the callback script run the stages
    one at a time too: each operation is completed before anything else
    happens, the stages come in the order Reader, Fetcher, Writer, each
    at most once, and nothing is invoked after an operation has
    failed. *)
Theorem callback_runs_one_at_a_time E fs :
  one_at_a_time (events (callback_main E fs)) /\
  (max_in_flight 0 (events (callback_main E fs)) <= 1)%nat /\
  map stage_of (invoked (events (callback_main E fs)))
    `prefix_of` [Reader; Fetcher; Writer] /\
  stops_at_failure (events (callback_main E fs)) = true.
Proof.
  script_cases E; cbn;
    (split; [repeat constructor
            | split; [lia | split; [eexists; reflexivity | reflexivity]]]).
Qed.

(** X18: the message [getDogPic] rejects with names what went wrong:
    at most one operation fails in a run, and when one does, the
    rejection carries the message of that operation's error; when
    [getDogPic] rejects though no operation failed, the body of the
    response was [null] or [undefined] and the rejection carries the
    message of the [TypeError] of reading its [message]. *)
Theorem rejection_names_the_failure E fs :
  match failed (events (getDogPic E fs)) with
  | [] =>
      (exists v, result (getDogPic E fs) = Ok v) \/
      (exists breed res e,
         read_result E (dog_txt E) fs = inr breed /\
         http_result E (superagent_get (dog_url breed)) = inr res /\
         prop (body res) "message" = Throw e /\
         result (getDogPic E fs) = Throw (new_Error (err_message e)))
  | (o, e) :: rest =>
      rest = [] /\
      result (getDogPic E fs) = Throw (new_Error (err_message e))
  end.
Proof.
  script_cases E; cbn; auto; [left; eauto | right].
  exists breed, res, e. auto.
Qed.

(** ** A run on a full disk *)

(** The write opens the output file, which empties it, and then fails:
    the old content is gone, [getDogPic] rejects with the message of the
    fault, and a second run leaves the same files. *)
Example full_disk_run :
  store (main (full_disk_env (NetResponse ok_response)) stale_files)
    !! "/app/dog-image.txt" = Some "" /\
  result (getDogPic (full_disk_env (NetResponse ok_response)) stale_files)
    = Throw (new_Error "ENOSPC: no space left on device, write") /\
  store (main (full_disk_env (NetResponse ok_response))
           (store (main (full_disk_env (NetResponse ok_response)) stale_files)))
  = store (main (full_disk_env (NetResponse ok_response)) stale_files).
Proof. repeat split; vm_compute; reflexivity. Qed.
